(** * FuDeviceLocker: a scoped guard that opens a device and closes it again

    Shallow embedding of [libfwupdplugin/fu-device-locker.c].

    The C code calls back into collaborators through two function pointers
    ([open_func], [close_func]), writes diagnostics with GLib's logging macros
    and keeps a reference on the device.  All of this is modelled by a small
    monad: a computation reads and updates the state of the outside world
    (whatever the callbacks act upon), emits the list of events it performed,
    and either returns a value or stops because it called through a [NULL]
    function pointer or dereferenced a [NULL] error. *)

From Stdlib Require Import List String ZArith Bool Lia.
Import ListNotations.

Local Open Scope string_scope.
Local Open Scope list_scope.

(** ** GLib data *)

Definition gboolean := bool.
Definition TRUE : gboolean := true.
Definition FALSE : gboolean := false.

(** The run-time type of an object, as far as the type-check macros used by
    the locker can tell: [G_USB_IS_DEVICE] holds of a [GUsbDevice] or of a type
    derived from it, [FU_IS_DEVICE] of a [FuDevice] or of a type derived from
    it.  GObject has single inheritance and neither class derives from the
    other, so the three cases are disjoint. *)
Inductive GType : Type :=
| G_USB_TYPE_DEVICE
| FU_TYPE_DEVICE
| G_TYPE_OBJECT.

Record GObject : Type := {
  g_type : GType;
  g_address : nat
}.

(** [gpointer]: a possibly [NULL] pointer to an object. *)
Definition gpointer := option GObject.
Definition NULL {A : Type} : option A := None.

Definition G_USB_IS_DEVICE (obj : gpointer) : bool :=
  match obj with
  | Some o => match g_type o with G_USB_TYPE_DEVICE => true | _ => false end
  | None => false
  end.

Definition FU_IS_DEVICE (obj : gpointer) : bool :=
  match obj with
  | Some o => match g_type o with FU_TYPE_DEVICE => true | _ => false end
  | None => false
  end.

(** Error domains. *)
Inductive GQuark : Type :=
| G_USB_DEVICE_ERROR
| G_IO_ERROR
| G_OTHER_ERROR (id : nat).

Definition GQuark_eqb (a b : GQuark) : bool :=
  match a, b with
  | G_USB_DEVICE_ERROR, G_USB_DEVICE_ERROR => true
  | G_IO_ERROR, G_IO_ERROR => true
  | G_OTHER_ERROR i, G_OTHER_ERROR j => Nat.eqb i j
  | _, _ => false
  end.

Record GError : Type := {
  domain : GQuark;
  code : Z;
  message : string
}.

(** [g_error_matches]: [FALSE] on a [NULL] error. *)
Definition g_error_matches (error : option GError) (d : GQuark) (c : Z) : bool :=
  match error with
  | None => false
  | Some e => GQuark_eqb (domain e) d && Z.eqb (code e) c
  end.

(** A [GError **] argument: [None] is a [NULL] location (the caller does not
    want the error), [Some None] a location holding [NULL], [Some (Some e)] a
    location that already holds an error. *)
Definition GErrorLoc := option (option GError).

Definition deref (error : GErrorLoc) : option GError :=
  match error with
  | Some e => e
  | None => None
  end.

Definition is_null {A : Type} (p : option A) : bool :=
  match p with
  | None => true
  | Some _ => false
  end.

(** ** Events *)

Inductive GLogLevelFlags : Type :=
| G_LOG_LEVEL_CRITICAL
| G_LOG_LEVEL_WARNING
| G_LOG_LEVEL_DEBUG.

(** Which field of the locker a call went through. *)
Inductive Slot : Type :=
| open_slot
| close_slot.

Inductive Event : Type :=
| Call (slot : Slot) (device : gpointer) (result : option GError)
| Log (level : GLogLevelFlags) (text : string)
| Ref (obj : GObject)
| Unref (obj : GObject).

Definition Slot_eqb (a b : Slot) : bool :=
  match a, b with
  | open_slot, open_slot => true
  | close_slot, close_slot => true
  | _, _ => false
  end.

(** The results of the calls made through one slot, in order. *)
Fixpoint results (slot : Slot) (trace : list Event) : list (option GError) :=
  match trace with
  | [] => []
  | Call s _ r :: rest =>
      if Slot_eqb s slot then r :: results slot rest else results slot rest
  | _ :: rest => results slot rest
  end.

Definition invocations (slot : Slot) (trace : list Event) : nat :=
  List.length (results slot trace).

Definition is_warning (ev : Event) : bool :=
  match ev with
  | Log G_LOG_LEVEL_WARNING _ => true
  | _ => false
  end.

(** No call follows a call that succeeded. *)
Fixpoint no_call_after_success (rs : list (option GError)) : bool :=
  match rs with
  | [] => true
  | None :: rest => is_null (hd_error rest)
  | Some _ :: rest => no_call_after_success rest
  end.

Definition failures (rs : list (option GError)) : nat :=
  List.length (filter (fun r => negb (is_null r)) rs).

(** The objects a trace takes a reference on, and those it releases one of,
    in order. *)
Fixpoint refs (trace : list Event) : list GObject :=
  match trace with
  | [] => []
  | Ref obj :: rest => obj :: refs rest
  | _ :: rest => refs rest
  end.

Fixpoint unrefs (trace : list Event) : list GObject :=
  match trace with
  | [] => []
  | Unref obj :: rest => obj :: unrefs rest
  | _ :: rest => unrefs rest
  end.

Section Locker.

(** The state the device callbacks act upon. *)
Variable World : Type.

(** Build configuration: whether [HAVE_GUSB] is defined. *)
Variable HAVE_GUSB : bool.

(** Error codes declared in the headers of gusb and gio. *)
Variable G_USB_DEVICE_ERROR_NO_DEVICE : Z.
Variable G_IO_ERROR_NOT_SUPPORTED : Z.

(** ** The monad *)

(** A run yields the returned value ([None] when the program stopped on a
    [NULL] dereference), the world it left and the events it emitted. *)
Definition M (A : Type) : Type := World -> option A * World * list Event.

Definition ret {A : Type} (a : A) : M A := fun w => (Some a, w, []).

Definition bind {A B : Type} (m : M A) (k : A -> M B) : M B :=
  fun w =>
    match m w with
    | (Some a, w1, t1) =>
        match k a w1 with
        | (b, w2, t2) => (b, w2, t1 ++ t2)
        end
    | (None, w1, t1) => (None, w1, t1)
    end.

Definition emit (ev : Event) : M unit := fun w => (Some tt, w, [ev]).

Definition crash {A : Type} : M A := fun w => (None, w, []).

Notation "x <- m ;; k" := (bind m (fun x => k))
  (at level 61, m at next level, right associativity).
Notation "' pat <- m ;; k" := (bind m (fun x => match x with pat => k end))
  (at level 61, pat pattern, m at next level, right associativity).
Notation "m ;; k" := (bind m (fun _ => k))
  (at level 61, right associativity).

(** ** GLib operations *)

Definition g_warning (text : string) : M unit := emit (Log G_LOG_LEVEL_WARNING text).
Definition g_debug (text : string) : M unit := emit (Log G_LOG_LEVEL_DEBUG text).
Definition g_critical (text : string) : M unit := emit (Log G_LOG_LEVEL_CRITICAL text).

(** [g_return_val_if_fail (expr, val)]: when the check fails a critical
    message is logged and [val] is returned. *)
Definition g_return_val_if_fail {A : Type}
    (cond : bool) (expr : string) (val : A) (continue : M A) : M A :=
  if cond then continue else g_critical expr ;; ret val.

(** [g_propagate_error (dest, src)]. *)
Definition g_propagate_error (dest : GErrorLoc) (src : option GError) : M GErrorLoc :=
  match src with
  | None => g_critical "src != NULL" ;; ret dest
  | Some e =>
      match dest with
      | None => ret dest
      | Some None => ret (Some (Some e))
      | Some (Some _) => g_warning "GError set over the top of a previous GError" ;; ret dest
      end
  end.

(** [g_set_error_literal (err, domain, code, message)]. *)
Definition g_set_error_literal (err : GErrorLoc) (d : GQuark) (c : Z) (msg : string)
    : M GErrorLoc :=
  match err with
  | None => ret err
  | Some None => ret (Some (Some {| domain := d; code := c; message := msg |}))
  | Some (Some _) => g_warning "GError set over the top of a previous GError" ;; ret err
  end.

Definition g_object_ref (obj : GObject) : M GObject := emit (Ref obj) ;; ret obj.
Definition g_object_unref (obj : GObject) : M unit := emit (Unref obj).

(** ** Device callbacks *)

(** A [FuDeviceLockerFunc] takes the device and a [GError **] and returns a
    [gboolean].  It follows the GError convention: it returns [FALSE] exactly when it
    reports an error, so its outcome is [None] for [TRUE] and [Some e] for
    [FALSE] with error [e]. *)
Definition FuDeviceLockerFunc : Type := gpointer -> World -> option GError * World.

(** Where a reported error lands in the [GError **] the callee was given. *)
Definition store_error (error : GErrorLoc) (r : option GError) : GErrorLoc :=
  match r, error with
  | Some e, Some None => Some (Some e)
  | _, _ => error
  end.

(** [func (device, error)] through a function pointer that may be [NULL]. *)
Definition call (slot : Slot) (func : option FuDeviceLockerFunc)
    (device : gpointer) (error : GErrorLoc) : M (gboolean * GErrorLoc) :=
  fun w =>
    match func with
    | None => (None, w, [])
    | Some f =>
        match f device w with
        | (r, w') => (Some (is_null r, store_error error r), w', [Call slot device r])
        end
    end.

Variable g_usb_device_open : FuDeviceLockerFunc.
Variable g_usb_device_close : FuDeviceLockerFunc.
Variable fu_device_open : FuDeviceLockerFunc.
Variable fu_device_close : FuDeviceLockerFunc.

(** ** The locker *)

Record FuDeviceLocker : Type := {
  device : gpointer;
  device_open : gboolean;
  open_func : option FuDeviceLockerFunc;
  close_func : option FuDeviceLockerFunc
}.

(** [g_object_new (FU_TYPE_DEVICE_LOCKER, NULL)]: the instance is zeroed and
    [fu_device_locker_init] does nothing. *)
Definition g_object_new : FuDeviceLocker :=
  {| device := NULL; device_open := FALSE; open_func := NULL; close_func := NULL |}.

Definition set_device (self : FuDeviceLocker) (d : gpointer) : FuDeviceLocker :=
  {| device := d; device_open := device_open self;
     open_func := open_func self; close_func := close_func self |}.

Definition set_device_open (self : FuDeviceLocker) (b : gboolean) : FuDeviceLocker :=
  {| device := device self; device_open := b;
     open_func := open_func self; close_func := close_func self |}.

Definition set_open_func (self : FuDeviceLocker) (f : option FuDeviceLockerFunc)
    : FuDeviceLocker :=
  {| device := device self; device_open := device_open self;
     open_func := f; close_func := close_func self |}.

Definition set_close_func (self : FuDeviceLocker) (f : option FuDeviceLockerFunc)
    : FuDeviceLocker :=
  {| device := device self; device_open := device_open self;
     open_func := open_func self; close_func := f |}.

(** The chained finalizer of the parent class, which frees the instance, has
    no effect that the model records. *)
Definition fu_device_locker_finalize (self : FuDeviceLocker) : M unit :=
  (if device_open self then
     '(ok, error) <- call close_slot (close_func self) (device self) (Some None) ;;
     if negb ok then
       match deref error with
       | Some e => g_warning ("failed to close device: " ++ message e)%string
       | None => crash
       end
     else ret tt
   else ret tt) ;;
  match device self with
  | Some d => g_object_unref d
  | None => ret tt
  end.

(** The locker is passed by pointer: the function returns it as it has left
    it, next to the return value and the contents of [error]. *)
Definition fu_device_locker_close (self : option FuDeviceLocker) (error : GErrorLoc)
    : M (gboolean * option FuDeviceLocker * GErrorLoc) :=
  match self with
  | None => g_critical "FU_IS_DEVICE_LOCKER (self)" ;; ret (FALSE, self, error)
  | Some this =>
      g_return_val_if_fail (is_null error || is_null (deref error))
        "error == NULL || *error == NULL" (FALSE, self, error) (
      if negb (device_open this) then ret (TRUE, self, error)
      else
        '(ok, error_local) <- call close_slot (close_func this) (device this) (Some None) ;;
        if negb ok then
          if HAVE_GUSB
             && (G_USB_IS_DEVICE (device this)
                 && g_error_matches (deref error_local)
                      G_USB_DEVICE_ERROR G_USB_DEVICE_ERROR_NO_DEVICE)
          then
            match deref error_local with
            | Some e => g_debug ("ignoring: " ++ message e)%string ;; ret (TRUE, self, error)
            | None => crash
            end
          else
            error' <- g_propagate_error error (deref error_local) ;;
            ret (FALSE, self, error')
        else ret (TRUE, Some (set_device_open this FALSE), error))
  end.

(** On the failure path the [g_autoptr] drops the only reference to the new
    locker, which finalizes it. *)
Definition fu_device_locker_new_full (dev : gpointer)
    (open_fn close_fn : option FuDeviceLockerFunc) (error : GErrorLoc)
    : M (option FuDeviceLocker * GErrorLoc) :=
  match dev with
  | None => g_critical "device != NULL" ;; ret (NULL, error)
  | Some d =>
      g_return_val_if_fail (negb (is_null open_fn)) "open_func != NULL" (NULL, error) (
      g_return_val_if_fail (negb (is_null close_fn)) "close_func != NULL" (NULL, error) (
      g_return_val_if_fail (negb (is_null error)) "error != NULL" (NULL, error) (
        let self := g_object_new in
        d' <- g_object_ref d ;;
        let self := set_device self (Some d') in
        let self := set_open_func self open_fn in
        let self := set_close_func self close_fn in
        '(ok, error') <- call open_slot (open_func self) dev error ;;
        if negb ok then
          fu_device_locker_finalize self ;;
          ret (NULL, error')
        else
          let self := set_device_open self TRUE in
          ret (Some self, error'))))
  end.

Definition fu_device_locker_new (dev : gpointer) (error : GErrorLoc)
    : M (option FuDeviceLocker * GErrorLoc) :=
  g_return_val_if_fail (negb (is_null dev)) "device != NULL" (NULL, error) (
  g_return_val_if_fail (negb (is_null error)) "error != NULL" (NULL, error) (
    if HAVE_GUSB && G_USB_IS_DEVICE dev then
      fu_device_locker_new_full dev (Some g_usb_device_open) (Some g_usb_device_close) error
    else if FU_IS_DEVICE dev then
      fu_device_locker_new_full dev (Some fu_device_open) (Some fu_device_close) error
    else
      error' <- g_set_error_literal error G_IO_ERROR G_IO_ERROR_NOT_SUPPORTED
                  "device object type not supported" ;;
      ret (NULL, error'))).

(** ** The life of a guard

    A caller closes the guard explicitly any number of times, each time
    with an error location of its choice, and then drops its reference.
    (Explicit close hands back the pointer it was given, so the [NULL] case
    below is only there to make the match total.) *)
Fixpoint close_each (errors : list GErrorLoc) (self : FuDeviceLocker) : M FuDeviceLocker :=
  match errors with
  | [] => ret self
  | error :: rest =>
      '(_, self', _) <- fu_device_locker_close (Some self) error ;;
      match self' with
      | Some this => close_each rest this
      | None => crash
      end
  end.

Definition guard_lifetime (errors : list GErrorLoc) (self : FuDeviceLocker) : M unit :=
  self' <- close_each errors self ;;
  fu_device_locker_finalize self'.

(** Projections of a run. *)
Definition value_of {A : Type} (r : option A * World * list Event) : option A := fst (fst r).
Definition world_of {A : Type} (r : option A * World * list Event) : World := snd (fst r).
Definition trace_of {A : Type} (r : option A * World * list Event) : list Event := snd r.

(** What destruction does after the close attempt: it drops the reference
    it holds on the device. *)
Definition unref_device (self : FuDeviceLocker) : list Event :=
  match device self with
  | Some d => [Unref d]
  | None => []
  end.

End Locker.

Arguments M World A : clear implicits.
Arguments FuDeviceLockerFunc World : clear implicits.
Arguments FuDeviceLocker World : clear implicits.
Arguments device {World} _.
Arguments device_open {World} _.
Arguments open_func {World} _.
Arguments close_func {World} _.
Arguments Build_FuDeviceLocker {World} _ _ _ _.
Arguments set_device_open {World} _ _.
Arguments fu_device_locker_finalize {World} _ _.
Arguments fu_device_locker_close {World} _ _ _ _ _.
Arguments fu_device_locker_new_full {World} _ _ _ _ _.
Arguments fu_device_locker_new {World} _ _ _ _ _ _ _ _ _.
Arguments close_each {World} _ _ _ _ _.
Arguments guard_lifetime {World} _ _ _ _ _.
Arguments value_of {World A} _.
Arguments world_of {World A} _.
Arguments trace_of {World A} _.
Arguments unref_device {World} _.

(** * A bench of devices and callbacks

    The world is the number of calls the callbacks have served so far. *)

Definition usb_device : GObject := {| g_type := G_USB_TYPE_DEVICE; g_address := 1 |}.
Definition fu_device : GObject := {| g_type := FU_TYPE_DEVICE; g_address := 2 |}.
Definition plain_object : GObject := {| g_type := G_TYPE_OBJECT; g_address := 3 |}.

(** The values the two codes have in [gusb] and [gio]. *)
Definition gusb_no_device : Z := 4.
Definition gio_not_supported : Z := 15.

Definition error_no_device : GError :=
  {| domain := G_USB_DEVICE_ERROR; code := gusb_no_device; message := "device gone" |}.

Definition error_busy : GError :=
  {| domain := G_IO_ERROR; code := 26; message := "device busy" |}.

Definition succeeds : FuDeviceLockerFunc nat := fun _ served => (None, S served).

Definition fails_with (e : GError) : FuDeviceLockerFunc nat :=
  fun _ served => (Some e, S served).

(** A close function that reports [first] on its first call and [then_] on
    every later one. *)
Definition fails_in_turn (first then_ : GError) : FuDeviceLockerFunc nat :=
  fun _ served => (Some (if Nat.eqb served 0 then first else then_), S served).

(** A guard as construction leaves it: open on [d], closing with [close_fn]. *)
Definition open_guard (d : GObject) (close_fn : FuDeviceLockerFunc nat) : FuDeviceLocker nat :=
  {| device := Some d; device_open := TRUE;
     open_func := Some succeeds; close_func := Some close_fn |}.

(** * Facts about the locker *)

Section LockerFacts.

Context {World : Type}.
Variable HAVE_GUSB : bool.
Variable G_USB_DEVICE_ERROR_NO_DEVICE : Z.
Variable G_IO_ERROR_NOT_SUPPORTED : Z.
Variable g_usb_device_open : FuDeviceLockerFunc World.
Variable g_usb_device_close : FuDeviceLockerFunc World.
Variable fu_device_open : FuDeviceLockerFunc World.
Variable fu_device_close : FuDeviceLockerFunc World.

(** ** Counting calls in a trace *)

Lemma results_app (slot : Slot) (t1 t2 : list Event) :
  results slot (t1 ++ t2) = results slot t1 ++ results slot t2.
Proof.
  induction t1 as [|ev t1 IH]; [reflexivity|].
  destruct ev as [s d r| | |]; cbn; try exact IH.
  destruct (Slot_eqb s slot); cbn; now rewrite IH.
Qed.

Lemma invocations_app (slot : Slot) (t1 t2 : list Event) :
  invocations slot (t1 ++ t2) = invocations slot t1 + invocations slot t2.
Proof. unfold invocations. now rewrite results_app, length_app. Qed.

Lemma failures_app (r1 r2 : list (option GError)) :
  failures (r1 ++ r2) = failures r1 + failures r2.
Proof. unfold failures. now rewrite filter_app, length_app. Qed.

(** ** One explicit close, case by case *)

#[local] Arguments G_USB_IS_DEVICE : simpl never.
#[local] Arguments FU_IS_DEVICE : simpl never.
#[local] Arguments g_error_matches : simpl never.

Ltac run_close :=
  unfold fu_device_locker_close, g_return_val_if_fail, call, bind, ret,
    g_propagate_error, g_debug, g_critical, g_warning, emit, crash; cbn.

(** A guard that is already closed: nothing happens. *)
Lemma close_when_closed (self : FuDeviceLocker World) (error : GErrorLoc) (w : World) :
  device_open self = false ->
  is_null error || is_null (deref error) = true ->
  fu_device_locker_close HAVE_GUSB G_USB_DEVICE_ERROR_NO_DEVICE (Some self) error w = (Some (TRUE, Some self, error), w, []).
Proof.
  intros Hopen Herr. run_close. now rewrite Herr, Hopen.
Qed.

(** The close function succeeds: the guard becomes closed. *)
Lemma close_when_close_func_succeeds
    (self : FuDeviceLocker World) (cf : FuDeviceLockerFunc World) (error : GErrorLoc) (w w' : World) :
  device_open self = true ->
  close_func self = Some cf ->
  cf (device self) w = (None, w') ->
  is_null error || is_null (deref error) = true ->
  fu_device_locker_close HAVE_GUSB G_USB_DEVICE_ERROR_NO_DEVICE (Some self) error w =
    (Some (TRUE, Some (set_device_open self FALSE), error), w',
     [Call close_slot (device self) None]).
Proof.
  intros Hopen Hcf Hrun Herr. run_close. rewrite Herr, Hopen, Hcf. cbn.
  now rewrite Hrun.
Qed.

(** The error location handed to explicit close is rejected: the close
    function is not called. *)
Lemma close_with_error_already_set
    (self : FuDeviceLocker World) (error : GErrorLoc) (w : World) :
  is_null error || is_null (deref error) = false ->
  fu_device_locker_close HAVE_GUSB G_USB_DEVICE_ERROR_NO_DEVICE (Some self) error w =
    (Some (FALSE, Some self, error), w,
     [Log G_LOG_LEVEL_CRITICAL "error == NULL || *error == NULL"]).
Proof.
  intros Herr. run_close. now rewrite Herr.
Qed.

(** The close function fails and the failure is not the one the USB branch
    ignores: the error goes to the caller and the guard is left as it was. *)
Lemma close_when_failure_propagated
    (self : FuDeviceLocker World) (cf : FuDeviceLockerFunc World) (error : GErrorLoc)
    (e : GError) (w w' : World) :
  device_open self = true ->
  close_func self = Some cf ->
  cf (device self) w = (Some e, w') ->
  HAVE_GUSB
    && (G_USB_IS_DEVICE (device self)
        && g_error_matches (Some e) G_USB_DEVICE_ERROR G_USB_DEVICE_ERROR_NO_DEVICE) = false ->
  is_null error || is_null (deref error) = true ->
  fu_device_locker_close HAVE_GUSB G_USB_DEVICE_ERROR_NO_DEVICE (Some self) error w =
    (Some (FALSE, Some self, match error with None => None | Some _ => Some (Some e) end),
     w', [Call close_slot (device self) (Some e)]).
Proof.
  intros Hopen Hcf Hrun Hgone Herr. run_close. rewrite Herr, Hopen, Hcf. cbn.
  rewrite Hrun. cbn. rewrite Hgone. cbn.
  destruct error as [[e0|]|]; cbn in *; [discriminate | reflexivity | reflexivity].
Qed.

(** The close function fails with the error the USB branch ignores. *)
Lemma close_when_failure_ignored
    (self : FuDeviceLocker World) (cf : FuDeviceLockerFunc World) (error : GErrorLoc)
    (e : GError) (w w' : World) :
  device_open self = true ->
  close_func self = Some cf ->
  cf (device self) w = (Some e, w') ->
  HAVE_GUSB
    && (G_USB_IS_DEVICE (device self)
        && g_error_matches (Some e) G_USB_DEVICE_ERROR G_USB_DEVICE_ERROR_NO_DEVICE) = true ->
  is_null error || is_null (deref error) = true ->
  fu_device_locker_close HAVE_GUSB G_USB_DEVICE_ERROR_NO_DEVICE (Some self) error w =
    (Some (TRUE, Some self, error), w',
     [Call close_slot (device self) (Some e);
      Log G_LOG_LEVEL_DEBUG ("ignoring: " ++ message e)%string]).
Proof.
  intros Hopen Hcf Hrun Hgone Herr. run_close. rewrite Herr, Hopen, Hcf. cbn.
  rewrite Hrun. cbn. now rewrite Hgone.
Qed.

(** Called through a [NULL] close function, the program stops. *)
Lemma close_when_close_func_null
    (self : FuDeviceLocker World) (error : GErrorLoc) (w : World) :
  device_open self = true ->
  close_func self = None ->
  is_null error || is_null (deref error) = true ->
  fu_device_locker_close HAVE_GUSB G_USB_DEVICE_ERROR_NO_DEVICE (Some self) error w = (None, w, []).
Proof.
  intros Hopen Hcf Herr. run_close. now rewrite Herr, Hopen, Hcf.
Qed.

(** What one explicit close can do to the guard and to the calls made
    through [close_func]: no call or a failed call, and the guard is as
    before; or one successful call, and the guard is closed. *)
Lemma close_step (self : FuDeviceLocker World) (error : GErrorLoc) (w : World) :
  let r := fu_device_locker_close HAVE_GUSB G_USB_DEVICE_ERROR_NO_DEVICE (Some self) error w in
  ((results close_slot (trace_of r) = []
    \/ exists e, results close_slot (trace_of r) = [Some e])
   /\ (value_of r = None \/ exists b err, value_of r = Some (b, Some self, err)))
  \/ (results close_slot (trace_of r) = [None]
      /\ exists b err, value_of r = Some (b, Some (set_device_open self FALSE), err)).
Proof.
  intros r. subst r.
  destruct (is_null error || is_null (deref error)) eqn:Herr.
  2:{ rewrite close_with_error_already_set by exact Herr. left. cbn. eauto 6. }
  destruct (device_open self) eqn:Hopen.
  2:{ rewrite close_when_closed by assumption. left. cbn. eauto 6. }
  destruct (close_func self) as [cf|] eqn:Hcf.
  2:{ rewrite close_when_close_func_null by assumption. left. cbn. eauto. }
  destruct (cf (device self) w) as [[e|] w'] eqn:Hrun.
  - destruct (HAVE_GUSB
              && (G_USB_IS_DEVICE (device self)
                  && g_error_matches (Some e) G_USB_DEVICE_ERROR
                       G_USB_DEVICE_ERROR_NO_DEVICE)) eqn:Hgone.
    + rewrite (close_when_failure_ignored self cf error e w w') by assumption.
      left. cbn. eauto 7.
    + rewrite (close_when_failure_propagated self cf error e w w') by assumption.
      left. cbn. eauto 7.
  - rewrite (close_when_close_func_succeeds self cf error w w') by assumption.
    right. cbn. eauto.
Qed.

(** ** Destruction, case by case *)

Ltac run_finalize :=
  unfold fu_device_locker_finalize, call, bind, ret, g_object_unref,
    g_warning, emit, crash; cbn.

Lemma finalize_when_closed (self : FuDeviceLocker World) (w : World) :
  device_open self = false ->
  fu_device_locker_finalize self w = (Some tt, w, unref_device self).
Proof.
  intros Hopen. run_finalize. rewrite Hopen. unfold unref_device.
  now destruct (device self).
Qed.

Lemma finalize_when_open
    (self : FuDeviceLocker World) (cf : FuDeviceLockerFunc World) (r : option GError) (w w' : World) :
  device_open self = true ->
  close_func self = Some cf ->
  cf (device self) w = (r, w') ->
  fu_device_locker_finalize self w =
    (Some tt, w',
     Call close_slot (device self) r
     :: match r with
        | Some e => [Log G_LOG_LEVEL_WARNING ("failed to close device: " ++ message e)%string]
        | None => []
        end
     ++ unref_device self).
Proof.
  intros Hopen Hcf Hrun. run_finalize. rewrite Hopen, Hcf. cbn. rewrite Hrun.
  unfold unref_device. destruct r as [e|]; cbn; now destruct (device self).
Qed.

Lemma finalize_when_close_func_null (self : FuDeviceLocker World) (w : World) :
  device_open self = true ->
  close_func self = None ->
  fu_device_locker_finalize self w = (None, w, []).
Proof.
  intros Hopen Hcf. run_finalize. now rewrite Hopen, Hcf.
Qed.

Lemma results_unref_device (slot : Slot) (self : FuDeviceLocker World) :
  results slot (unref_device self) = [].
Proof. unfold unref_device. now destruct (device self). Qed.

Lemma results_log (slot : Slot) (r : option GError) (t : list Event) :
  results slot
    (match r with
     | Some e => [Log G_LOG_LEVEL_WARNING ("failed to close device: " ++ message e)%string]
     | None => []
     end ++ t) = results slot t.
Proof. now destruct r. Qed.

(** Destruction calls through [close_func] at most once. *)
Lemma finalize_step (self : FuDeviceLocker World) (w : World) :
  results close_slot (trace_of (fu_device_locker_finalize self w)) = []
  \/ exists r, results close_slot (trace_of (fu_device_locker_finalize self w)) = [r].
Proof.
  destruct (device_open self) eqn:Hopen.
  2:{ rewrite finalize_when_closed by assumption. left. apply results_unref_device. }
  destruct (close_func self) as [cf|] eqn:Hcf.
  2:{ rewrite finalize_when_close_func_null by assumption. now left. }
  destruct (cf (device self) w) as [r w'] eqn:Hrun.
  rewrite (finalize_when_open self cf r w w') by assumption.
  right. exists r. cbn. now rewrite results_log, results_unref_device.
Qed.

(** ** A whole life: explicit closes, then destruction *)

Lemma close_each_cons (error : GErrorLoc) (rest : list GErrorLoc)
    (self : FuDeviceLocker World) (w : World) :
  close_each HAVE_GUSB G_USB_DEVICE_ERROR_NO_DEVICE (error :: rest) self w =
    match fu_device_locker_close HAVE_GUSB G_USB_DEVICE_ERROR_NO_DEVICE (Some self) error w with
    | (Some (_, Some this, _), w1, t1) =>
        match close_each HAVE_GUSB G_USB_DEVICE_ERROR_NO_DEVICE rest this w1 with
        | (v, w2, t2) => (v, w2, t1 ++ t2)
        end
    | (Some (_, None, _), w1, t1) => (None, w1, t1 ++ [])
    | (None, w1, t1) => (None, w1, t1)
    end.
Proof.
  cbn [close_each]. unfold bind at 1.
  destruct (fu_device_locker_close HAVE_GUSB G_USB_DEVICE_ERROR_NO_DEVICE (Some self) error w) as [[[[[b [this|]] err]|] w1] t1];
    reflexivity.
Qed.

Lemma guard_lifetime_nil (self : FuDeviceLocker World) (w : World) :
  trace_of (guard_lifetime HAVE_GUSB G_USB_DEVICE_ERROR_NO_DEVICE [] self w) = trace_of (fu_device_locker_finalize self w).
Proof.
  unfold guard_lifetime, bind. cbn.
  now destruct (fu_device_locker_finalize self w) as [[v w1] t1].
Qed.

Lemma guard_lifetime_cons (error : GErrorLoc) (rest : list GErrorLoc)
    (self : FuDeviceLocker World) (w : World) :
  trace_of (guard_lifetime HAVE_GUSB G_USB_DEVICE_ERROR_NO_DEVICE (error :: rest) self w) =
    match fu_device_locker_close HAVE_GUSB G_USB_DEVICE_ERROR_NO_DEVICE (Some self) error w with
    | (Some (_, Some this, _), w1, t1) => t1 ++ trace_of (guard_lifetime HAVE_GUSB G_USB_DEVICE_ERROR_NO_DEVICE rest this w1)
    | (_, _, t1) => t1
    end.
Proof.
  unfold guard_lifetime, bind at 1. rewrite close_each_cons.
  destruct (fu_device_locker_close HAVE_GUSB G_USB_DEVICE_ERROR_NO_DEVICE (Some self) error w) as [[[[[b [this|]] err]|] w1] t1];
    cbn; [|now rewrite app_nil_r|reflexivity].
  unfold bind.
  destruct (close_each HAVE_GUSB G_USB_DEVICE_ERROR_NO_DEVICE rest this w1) as [[[self'|] w2] t2]; cbn; [|reflexivity].
  destruct (fu_device_locker_finalize self' w2) as [[v w3] t3]; cbn.
  now rewrite app_assoc.
Qed.

(** Once the guard is closed, nothing in the rest of its life calls
    through [close_func]. *)
Lemma guard_lifetime_closed (errors : list GErrorLoc) (self : FuDeviceLocker World) (w : World) :
  device_open self = false ->
  results close_slot (trace_of (guard_lifetime HAVE_GUSB G_USB_DEVICE_ERROR_NO_DEVICE errors self w)) = [].
Proof.
  revert w. induction errors as [|error rest IH]; intros w Hopen.
  - rewrite guard_lifetime_nil, finalize_when_closed by assumption.
    apply results_unref_device.
  - rewrite guard_lifetime_cons.
    destruct (is_null error || is_null (deref error)) eqn:Herr.
    + rewrite close_when_closed by assumption. cbn. now apply IH.
    + rewrite close_with_error_already_set by assumption. cbn. now apply IH.
Qed.

Lemma no_call_after_success_bound (rs : list (option GError)) :
  no_call_after_success rs = true -> List.length rs <= 1 + failures rs.
Proof.
  induction rs as [|[e|] rest IH]; cbn; intros H.
  - lia.
  - specialize (IH H). unfold failures in *. cbn. lia.
  - destruct rest; [cbn; lia | discriminate].
Qed.

Lemma guard_lifetime_results (errors : list GErrorLoc) (self : FuDeviceLocker World) (w : World) :
  no_call_after_success (results close_slot (trace_of (guard_lifetime HAVE_GUSB G_USB_DEVICE_ERROR_NO_DEVICE errors self w))) = true.
Proof.
  revert self w. induction errors as [|error rest IH]; intros self w.
  - rewrite guard_lifetime_nil.
    destruct (finalize_step self w) as [H|[[e|] H]]; now rewrite H.
  - rewrite guard_lifetime_cons.
    pose proof (close_step self error w) as Hstep. cbv zeta in Hstep.
    destruct (fu_device_locker_close HAVE_GUSB G_USB_DEVICE_ERROR_NO_DEVICE (Some self) error w) as [[v w1] t1].
    unfold trace_of at 1 2 3, value_of in Hstep. cbn [fst snd] in Hstep.
    destruct Hstep as [[Hres Hval]|[Hres (b & err & Hval)]].
    + destruct Hval as [->|(b & err & ->)].
      * destruct Hres as [->|[e ->]]; reflexivity.
      * rewrite results_app.
        destruct Hres as [->|[e ->]]; cbn; apply IH.
    + rewrite Hval, results_app, Hres, guard_lifetime_closed by reflexivity.
      reflexivity.
Qed.

(** An open guard with a usable error location always calls through
    [close_func] first. *)
Lemma close_when_open_calls
    (self : FuDeviceLocker World) (cf : FuDeviceLockerFunc World) (error : GErrorLoc)
    (r : option GError) (w w' : World) :
  device_open self = true ->
  close_func self = Some cf ->
  cf (device self) w = (r, w') ->
  is_null error || is_null (deref error) = true ->
  exists v tail,
    fu_device_locker_close HAVE_GUSB G_USB_DEVICE_ERROR_NO_DEVICE (Some self) error w =
      (v, w', Call close_slot (device self) r :: tail).
Proof.
  intros Hopen Hcf Hrun Herr. destruct r as [e|].
  - destruct (HAVE_GUSB
              && (G_USB_IS_DEVICE (device self)
                  && g_error_matches (Some e) G_USB_DEVICE_ERROR
                       G_USB_DEVICE_ERROR_NO_DEVICE)) eqn:Hgone.
    + rewrite (close_when_failure_ignored self cf error e w w') by assumption. eauto.
    + rewrite (close_when_failure_propagated self cf error e w w') by assumption. eauto.
  - rewrite (close_when_close_func_succeeds self cf error w w') by assumption. eauto.
Qed.

(** ** Explicit close *)

(** C1, as the code has it: when a USB build closes an open guard on a
    [GUsbDevice] and the close function fails with
    [G_USB_DEVICE_ERROR_NO_DEVICE], the call logs at debug level and returns
    [TRUE] without touching the caller's error; the guard itself is left
    exactly as it was, so [device_open] is still [TRUE]. *)
Theorem close_device_gone_returns_success_and_stays_open
    (self : FuDeviceLocker World) (cf : FuDeviceLockerFunc World) (error : GErrorLoc)
    (e : GError) (w w' : World) :
  HAVE_GUSB = true ->
  device_open self = true ->
  close_func self = Some cf ->
  G_USB_IS_DEVICE (device self) = true ->
  cf (device self) w = (Some e, w') ->
  g_error_matches (Some e) G_USB_DEVICE_ERROR G_USB_DEVICE_ERROR_NO_DEVICE = true ->
  is_null error || is_null (deref error) = true ->
  exists self',
    fu_device_locker_close HAVE_GUSB G_USB_DEVICE_ERROR_NO_DEVICE (Some self) error w =
      (Some (TRUE, Some self', error), w',
       [Call close_slot (device self) (Some e);
        Log G_LOG_LEVEL_DEBUG ("ignoring: " ++ message e)%string])
    /\ device_open self' = true.
Proof.
  intros Hgusb Hopen Hcf Husb Hrun Hmatch Herr. exists self. split; [|exact Hopen].
  apply (close_when_failure_ignored self cf error e w w'); try assumption.
  now rewrite Hgusb, Husb, Hmatch.
Qed.

(** C3: when explicit close on an open guard calls the close function and
    it fails with an error that is not the device-gone condition of a USB
    device, the call returns [FALSE] and hands exactly that error to the
    caller (into the error location, when the caller gave one), the guard is
    unchanged and so still open, and the next explicit close calls the close
    function again. *)
Theorem close_genuine_failure_is_returned_and_retried
    (self : FuDeviceLocker World) (cf : FuDeviceLockerFunc World) (error : GErrorLoc)
    (e : GError) (w w' : World) :
  device_open self = true ->
  close_func self = Some cf ->
  cf (device self) w = (Some e, w') ->
  HAVE_GUSB
    && (G_USB_IS_DEVICE (device self)
        && g_error_matches (Some e) G_USB_DEVICE_ERROR G_USB_DEVICE_ERROR_NO_DEVICE) = false ->
  is_null error || is_null (deref error) = true ->
  fu_device_locker_close HAVE_GUSB G_USB_DEVICE_ERROR_NO_DEVICE (Some self) error w =
    (Some (FALSE, Some self, match error with None => None | Some _ => Some (Some e) end),
     w', [Call close_slot (device self) (Some e)])
  /\ device_open self = true
  /\ forall (error2 : GErrorLoc) (r2 : option GError) (w2 : World),
       is_null error2 || is_null (deref error2) = true ->
       cf (device self) w' = (r2, w2) ->
       exists v tail,
         fu_device_locker_close HAVE_GUSB G_USB_DEVICE_ERROR_NO_DEVICE (Some self) error2 w' =
           (v, w2, Call close_slot (device self) r2 :: tail).
Proof.
  intros Hopen Hcf Hrun Hgone Herr. repeat split.
  - now apply (close_when_failure_propagated self cf).
  - exact Hopen.
  - intros error2 r2 w2 Herr2 Hrun2.
    now apply (close_when_open_calls self cf).
Qed.

(** C9: on a guard whose device is not a USB device, whatever error the
    close function fails with, explicit close returns [FALSE], hands that
    error to the caller and leaves the guard open. *)
Theorem close_non_usb_failure_is_propagated
    (self : FuDeviceLocker World) (cf : FuDeviceLockerFunc World) (error : GErrorLoc)
    (e : GError) (w w' : World) :
  G_USB_IS_DEVICE (device self) = false ->
  device_open self = true ->
  close_func self = Some cf ->
  cf (device self) w = (Some e, w') ->
  is_null error || is_null (deref error) = true ->
  fu_device_locker_close HAVE_GUSB G_USB_DEVICE_ERROR_NO_DEVICE (Some self) error w =
    (Some (FALSE, Some self, match error with None => None | Some _ => Some (Some e) end),
     w', [Call close_slot (device self) (Some e)]).
Proof.
  intros Husb Hopen Hcf Hrun Herr.
  apply (close_when_failure_propagated self cf); try assumption.
  rewrite Husb. cbn. apply andb_false_r.
Qed.

(** Idempotence where the close function itself succeeded: the second
    explicit close returns [TRUE] and calls nothing. *)
Lemma close_twice_after_close_func_succeeded
    (self : FuDeviceLocker World) (cf : FuDeviceLockerFunc World)
    (error1 error2 : GErrorLoc) (w w' : World) :
  device_open self = true ->
  close_func self = Some cf ->
  cf (device self) w = (None, w') ->
  is_null error1 || is_null (deref error1) = true ->
  is_null error2 || is_null (deref error2) = true ->
  exists self' t1 t2,
    fu_device_locker_close HAVE_GUSB G_USB_DEVICE_ERROR_NO_DEVICE (Some self) error1 w =
      (Some (TRUE, Some self', error1), w', t1)
    /\ fu_device_locker_close HAVE_GUSB G_USB_DEVICE_ERROR_NO_DEVICE (Some self') error2 w' =
         (Some (TRUE, Some self', error2), w', t2)
    /\ invocations close_slot (t1 ++ t2) = 1.
Proof.
  intros Hopen Hcf Hrun Herr1 Herr2.
  exists (set_device_open self FALSE), [Call close_slot (device self) None], [].
  repeat split.
  - now apply (close_when_close_func_succeeds self cf).
  - now apply close_when_closed.
Qed.

(** C6, as the code has it: when the first explicit close succeeds because
    the close function of a USB device reported
    [G_USB_DEVICE_ERROR_NO_DEVICE], the guard is still open and the second
    explicit close calls the close function again: two calls over the two
    closes, and the second close returns whatever that second call gives. *)
Theorem close_twice_after_device_gone_calls_twice
    (self : FuDeviceLocker World) (cf : FuDeviceLockerFunc World)
    (error1 error2 : GErrorLoc) (e : GError) (r2 : option GError) (w w1 w2 : World) :
  HAVE_GUSB = true ->
  device_open self = true ->
  close_func self = Some cf ->
  G_USB_IS_DEVICE (device self) = true ->
  cf (device self) w = (Some e, w1) ->
  g_error_matches (Some e) G_USB_DEVICE_ERROR G_USB_DEVICE_ERROR_NO_DEVICE = true ->
  cf (device self) w1 = (r2, w2) ->
  is_null error1 || is_null (deref error1) = true ->
  is_null error2 || is_null (deref error2) = true ->
  exists t1 v2 t2,
    fu_device_locker_close HAVE_GUSB G_USB_DEVICE_ERROR_NO_DEVICE (Some self) error1 w =
      (Some (TRUE, Some self, error1), w1, t1)
    /\ fu_device_locker_close HAVE_GUSB G_USB_DEVICE_ERROR_NO_DEVICE (Some self) error2 w1 =
         (v2, w2, t2)
    /\ results close_slot (t1 ++ t2) = [Some e; r2]
    /\ invocations close_slot (t1 ++ t2) = 2.
Proof.
  intros Hgusb Hopen Hcf Husb Hrun Hmatch Hrun2 Herr1 Herr2.
  assert (Hgone : HAVE_GUSB
                  && (G_USB_IS_DEVICE (device self)
                      && g_error_matches (Some e) G_USB_DEVICE_ERROR
                           G_USB_DEVICE_ERROR_NO_DEVICE) = true)
    by now rewrite Hgusb, Husb, Hmatch.
  rewrite (close_when_failure_ignored self cf error1 e w w1) by assumption.
  destruct r2 as [e2|].
  - destruct (HAVE_GUSB
              && (G_USB_IS_DEVICE (device self)
                  && g_error_matches (Some e2) G_USB_DEVICE_ERROR
                       G_USB_DEVICE_ERROR_NO_DEVICE)) eqn:Hgone2.
    + rewrite (close_when_failure_ignored self cf error2 e2 w1 w2) by assumption.
      do 3 eexists. repeat split.
    + rewrite (close_when_failure_propagated self cf error2 e2 w1 w2) by assumption.
      do 3 eexists. repeat split.
  - rewrite (close_when_close_func_succeeds self cf error2 w1 w2) by assumption.
    do 3 eexists. repeat split.
Qed.

(** ** The whole life of a guard *)

(** C2, as the code has it: over any sequence of explicit closes followed
    by destruction, no call of the close function follows a call that
    succeeded; so the close function is called at most once more than the
    number of its calls that failed. *)
Theorem guard_lifetime_no_call_after_success
    (errors : list GErrorLoc) (self : FuDeviceLocker World) (w : World) :
  let trace :=
    trace_of (guard_lifetime HAVE_GUSB G_USB_DEVICE_ERROR_NO_DEVICE errors self w) in
  no_call_after_success (results close_slot trace) = true
  /\ invocations close_slot trace <= 1 + failures (results close_slot trace).
Proof.
  cbv zeta. pose proof (guard_lifetime_results errors self w) as H.
  split; [exact H|]. now apply no_call_after_success_bound.
Qed.

(** ** Destruction *)

(** C7: destroying a guard that is open calls the close function exactly
    once and returns normally whatever that call gave, a failure leaving
    only a warning with the error's message in the log; destroying a guard
    that is closed calls the close function zero times. *)
Theorem finalize_closes_once_and_swallows (self : FuDeviceLocker World) (w : World) :
  let run := fu_device_locker_finalize self w in
  (device_open self = true ->
   forall (cf : FuDeviceLockerFunc World) (r : option GError) (w' : World),
     close_func self = Some cf ->
     cf (device self) w = (r, w') ->
     value_of run = Some tt
     /\ world_of run = w'
     /\ invocations close_slot (trace_of run) = 1
     /\ trace_of run =
          Call close_slot (device self) r
          :: match r with
             | Some e =>
                 [Log G_LOG_LEVEL_WARNING ("failed to close device: " ++ message e)%string]
             | None => []
             end
          ++ unref_device self)
  /\ (device_open self = false ->
        run = (Some tt, w, unref_device self)
        /\ invocations close_slot (trace_of run) = 0).
Proof.
  intros run. subst run. split.
  - intros Hopen cf r w' Hcf Hrun.
    rewrite (finalize_when_open self cf r w w') by assumption.
    repeat split. unfold invocations, trace_of. cbn.
    now rewrite results_log, results_unref_device.
  - intros Hopen. rewrite finalize_when_closed by assumption.
    repeat split. unfold invocations, trace_of. cbn.
    now rewrite results_unref_device.
Qed.

(** ** Construction *)

Ltac run_new :=
  unfold fu_device_locker_new, fu_device_locker_new_full, g_return_val_if_fail,
    fu_device_locker_finalize, g_set_error_literal, g_object_ref, g_object_unref,
    g_critical, g_warning, call, bind, ret, emit, crash; cbn.

(** C4: with a device, both functions and an error location given, when
    the open function succeeds, construction returns a guard on that device
    whose [device_open] is [TRUE]; the open function was called exactly once
    and the close function not at all. *)
Theorem new_full_opens_once
    (d : GObject) (open_fn close_fn : FuDeviceLockerFunc World)
    (content : option GError) (w w' : World) :
  open_fn (Some d) w = (None, w') ->
  let run := fu_device_locker_new_full (Some d) (Some open_fn) (Some close_fn)
               (Some content) w in
  run = (Some (Some {| device := Some d; device_open := TRUE;
                       open_func := Some open_fn; close_func := Some close_fn |},
               Some content),
         w', [Ref d; Call open_slot (Some d) None])
  /\ invocations open_slot (trace_of run) = 1
  /\ invocations close_slot (trace_of run) = 0.
Proof.
  intros Hrun run. subst run. run_new. rewrite Hrun. cbn. repeat split.
Qed.

(** C5: when the open function fails, construction returns no guard, the
    caller's error location holds the very error the open function gave,
    and the close function is not called while the half-built guard is
    thrown away. *)
Theorem new_full_open_failure
    (d : GObject) (open_fn close_fn : FuDeviceLockerFunc World)
    (e : GError) (w w' : World) :
  open_fn (Some d) w = (Some e, w') ->
  let run := fu_device_locker_new_full (Some d) (Some open_fn) (Some close_fn)
               (Some None) w in
  run = (Some (NULL, Some (Some e)), w',
         [Ref d; Call open_slot (Some d) (Some e); Unref d])
  /\ invocations close_slot (trace_of run) = 0.
Proof.
  intros Hrun run. subst run. run_new. rewrite Hrun. cbn. repeat split.
Qed.

(** C8: for a device that is neither a [GUsbDevice] nor a [FuDevice],
    construction by inference returns no guard, puts a
    [G_IO_ERROR_NOT_SUPPORTED] error of domain [G_IO_ERROR] in the caller's
    error location and calls nothing. *)
Theorem new_unsupported_device_type (d : GObject) (w : World) :
  G_USB_IS_DEVICE (Some d) = false ->
  FU_IS_DEVICE (Some d) = false ->
  let run := fu_device_locker_new HAVE_GUSB G_IO_ERROR_NOT_SUPPORTED
               g_usb_device_open g_usb_device_close fu_device_open fu_device_close
               (Some d) (Some None) w in
  run = (Some (NULL,
               Some (Some {| domain := G_IO_ERROR; code := G_IO_ERROR_NOT_SUPPORTED;
                             message := "device object type not supported" |})),
         w, [])
  /\ invocations open_slot (trace_of run) = 0.
Proof.
  intros Husb Hfu run. subst run. run_new. rewrite Husb, Hfu, andb_false_r.
  cbn. repeat split.
Qed.

(** C10: called with a [NULL] error location, either constructor returns
    no guard and calls no function: it logs one critical message and leaves
    the world as it was. *)
Theorem constructors_reject_null_error
    (dev : gpointer) (open_fn close_fn : option (FuDeviceLockerFunc World)) (w : World) :
  (exists expr,
     fu_device_locker_new_full dev open_fn close_fn NULL w =
       (Some (NULL, NULL), w, [Log G_LOG_LEVEL_CRITICAL expr]))
  /\ invocations open_slot
       (trace_of (fu_device_locker_new_full dev open_fn close_fn NULL w)) = 0
  /\ (exists expr,
        fu_device_locker_new HAVE_GUSB G_IO_ERROR_NOT_SUPPORTED
          g_usb_device_open g_usb_device_close fu_device_open fu_device_close
          dev NULL w =
          (Some (NULL, NULL), w, [Log G_LOG_LEVEL_CRITICAL expr]))
  /\ invocations open_slot
       (trace_of (fu_device_locker_new HAVE_GUSB G_IO_ERROR_NOT_SUPPORTED
                    g_usb_device_open g_usb_device_close fu_device_open fu_device_close
                    dev NULL w)) = 0.
Proof.
  repeat split.
  - destruct dev as [d|], open_fn as [f|], close_fn as [g|]; run_new; eauto.
  - destruct dev as [d|], open_fn as [f|], close_fn as [g|]; reflexivity.
  - destruct dev as [d|]; run_new; eauto.
  - destruct dev as [d|]; reflexivity.
Qed.

(** Every guard that construction hands out is open, holds the device it was
    given and has both functions set: the hypotheses under which the facts
    about explicit close and destruction are stated. *)
Lemma new_full_guard_shape
    (dev : gpointer) (open_fn close_fn : option (FuDeviceLockerFunc World))
    (error error' : GErrorLoc) (guard : FuDeviceLocker World) (w w' : World)
    (t : list Event) :
  fu_device_locker_new_full dev open_fn close_fn error w = (Some (Some guard, error'), w', t) ->
  device_open guard = true
  /\ device guard = dev /\ dev <> NULL
  /\ open_func guard = open_fn /\ open_fn <> NULL
  /\ close_func guard = close_fn /\ close_fn <> NULL.
Proof.
  destruct dev as [d|], open_fn as [f|], close_fn as [g|], error as [content|];
    run_new; try discriminate.
  destruct (f (Some d) w) as [[e|] w1]; cbn; intros H; inversion H; subst; cbn.
  repeat split; discriminate.
Qed.

(** * Further facts: arguments, invariants and whole lives *)

(** One explicit close on a locker that is there, split into the six ways
    it can go; the run is rewritten to its value in each. *)
Ltac close_cases self error w :=
  let cf := fresh "cf" in
  let e := fresh "e" in
  let w1 := fresh "w1" in
  destruct (is_null error || is_null (deref error)) eqn:Herr;
  [ destruct (device_open self) eqn:Hopen;
    [ destruct (close_func self) as [cf|] eqn:Hcf;
      [ destruct (cf (device self) w) as [[e|] w1] eqn:Hrun;
        [ destruct (HAVE_GUSB
                    && (G_USB_IS_DEVICE (device self)
                        && g_error_matches (Some e) G_USB_DEVICE_ERROR
                             G_USB_DEVICE_ERROR_NO_DEVICE)) eqn:Hgone;
          [ rewrite (close_when_failure_ignored self cf error e w w1) in * by assumption
          | rewrite (close_when_failure_propagated self cf error e w w1) in * by assumption ]
        | rewrite (close_when_close_func_succeeds self cf error w w1) in * by assumption ]
      | rewrite (close_when_close_func_null self error w) in * by assumption ]
    | rewrite (close_when_closed self error w) in * by assumption ]
  | rewrite (close_with_error_already_set self error w) in * by assumption ].

(** ** Explicit close: arguments and invariants *)

(** Explicit close hands back the locker it was given, with the same device
    and the same close function. *)
Lemma close_keeps_device_and_close_func
    (self : FuDeviceLocker World) (error error' : GErrorLoc) (w w' : World)
    (b : gboolean) (self' : option (FuDeviceLocker World)) (t : list Event) :
  fu_device_locker_close HAVE_GUSB G_USB_DEVICE_ERROR_NO_DEVICE (Some self) error w =
    (Some (b, self', error'), w', t) ->
  exists this,
    self' = Some this /\ device this = device self /\ close_func this = close_func self.
Proof.
  intros H. close_cases self error w; inversion H; subst; clear H;
    eexists; (split; [reflexivity|]); split; cbn; congruence.
Qed.

(** Explicit close on a [NULL] locker, or with an error location that
    already holds an error, returns [FALSE] after one critical message: the
    close function is not called, the world, the locker and the error
    location are as before. *)
Theorem close_rejects_bad_arguments
    (self : option (FuDeviceLocker World)) (error : GErrorLoc) (w : World) :
  is_null self || negb (is_null error || is_null (deref error)) = true ->
  exists expr,
    fu_device_locker_close HAVE_GUSB G_USB_DEVICE_ERROR_NO_DEVICE self error w =
      (Some (FALSE, self, error), w, [Log G_LOG_LEVEL_CRITICAL expr]).
Proof.
  intros H. destruct self as [this|].
  - cbn in H. apply negb_true_iff in H.
    rewrite close_with_error_already_set by exact H. eauto.
  - run_close. eauto.
Qed.

(** Whatever explicit close returns, the locker it leaves holds the same
    device and the same two functions; [device_open] is never switched on;
    and a close that returns [FALSE] leaves the locker exactly as it was. *)
Theorem close_only_clears_device_open
    (self : FuDeviceLocker World) (error error' : GErrorLoc) (w w' : World)
    (b : gboolean) (self' : option (FuDeviceLocker World)) (t : list Event) :
  fu_device_locker_close HAVE_GUSB G_USB_DEVICE_ERROR_NO_DEVICE (Some self) error w =
    (Some (b, self', error'), w', t) ->
  exists this,
    self' = Some this
    /\ device this = device self
    /\ open_func this = open_func self
    /\ close_func this = close_func self
    /\ (device_open this = true -> device_open self = true)
    /\ (b = FALSE -> this = self).
Proof.
  intros H. close_cases self error w; inversion H; subst; clear H;
    eexists; (split; [reflexivity|]); cbn;
    repeat split; intros; unfold TRUE, FALSE in *;
    try reflexivity; try assumption; congruence.
Qed.

(** Explicit close with an empty error location follows the GError
    convention: it returns [TRUE] and leaves the location empty, or it
    returns [FALSE] and the location holds the error of the one close call
    that was made. *)
Theorem close_follows_gerror_convention
    (self : FuDeviceLocker World) (error' : GErrorLoc) (w w' : World)
    (b : gboolean) (self' : option (FuDeviceLocker World)) (t : list Event) :
  fu_device_locker_close HAVE_GUSB G_USB_DEVICE_ERROR_NO_DEVICE (Some self) (Some None) w =
    (Some (b, self', error'), w', t) ->
  (b = TRUE /\ error' = Some None)
  \/ (b = FALSE
      /\ exists e, error' = Some (Some e) /\ results close_slot t = [Some e]).
Proof.
  intros H. close_cases self (@Some (option GError) None) w;
    inversion H; subst; clear H; try discriminate; eauto.
Qed.

(** Explicit close returns [TRUE] and yet leaves the guard open in one case
    only: a build with [HAVE_GUSB], a USB device, and a close function that
    failed with [G_USB_DEVICE_ERROR_NO_DEVICE].  In every other case a [TRUE]
    means the guard is closed. *)
Theorem close_success_but_open_only_when_device_gone
    (self this : FuDeviceLocker World) (error error' : GErrorLoc) (w w' : World)
    (t : list Event) :
  fu_device_locker_close HAVE_GUSB G_USB_DEVICE_ERROR_NO_DEVICE (Some self) error w =
    (Some (TRUE, Some this, error'), w', t) ->
  device_open this = true ->
  HAVE_GUSB = true
  /\ G_USB_IS_DEVICE (device self) = true
  /\ exists e,
       results close_slot t = [Some e]
       /\ g_error_matches (Some e) G_USB_DEVICE_ERROR G_USB_DEVICE_ERROR_NO_DEVICE = true.
Proof.
  intros H Hstill. close_cases self error w; inversion H; subst; clear H;
    try (cbn in *; unfold TRUE, FALSE in *; congruence).
  apply andb_true_iff in Hgone. destruct Hgone as [Hg Hrest].
  apply andb_true_iff in Hrest. destruct Hrest as [Hu Hm].
  split; [exact Hg|]. split; [exact Hu|].
  exists e. split; [reflexivity | exact Hm].
Qed.

(** ** Whole lives: what never happens, and what always does *)

Lemma refs_app (t1 t2 : list Event) : refs (t1 ++ t2) = refs t1 ++ refs t2.
Proof.
  induction t1 as [|ev t1 IH]; [reflexivity|].
  destruct ev; cbn; now rewrite IH.
Qed.

Lemma unrefs_app (t1 t2 : list Event) : unrefs (t1 ++ t2) = unrefs t1 ++ unrefs t2.
Proof.
  induction t1 as [|ev t1 IH]; [reflexivity|].
  destruct ev; cbn; now rewrite IH.
Qed.

Lemma guard_lifetime_cons_run (error : GErrorLoc) (rest : list GErrorLoc)
    (self : FuDeviceLocker World) (w : World) :
  guard_lifetime HAVE_GUSB G_USB_DEVICE_ERROR_NO_DEVICE (error :: rest) self w =
    match fu_device_locker_close HAVE_GUSB G_USB_DEVICE_ERROR_NO_DEVICE (Some self) error w with
    | (Some (_, Some this, _), w1, t1) =>
        match guard_lifetime HAVE_GUSB G_USB_DEVICE_ERROR_NO_DEVICE rest this w1 with
        | (v, w2, t2) => (v, w2, t1 ++ t2)
        end
    | (Some (_, None, _), w1, t1) => (None, w1, t1)
    | (None, w1, t1) => (None, w1, t1)
    end.
Proof.
  unfold guard_lifetime, bind at 1. rewrite close_each_cons.
  destruct (fu_device_locker_close HAVE_GUSB G_USB_DEVICE_ERROR_NO_DEVICE (Some self) error w)
    as [[[[[b [this|]] err]|] w1] t1]; cbn; [|now rewrite app_nil_r|reflexivity].
  unfold bind.
  destruct (close_each HAVE_GUSB G_USB_DEVICE_ERROR_NO_DEVICE rest this w1)
    as [[[self'|] w2] t2]; cbn; [|reflexivity].
  destruct (fu_device_locker_finalize self' w2) as [[v w3] t3]; cbn.
  now rewrite app_assoc.
Qed.

(** One explicit close takes and drops no reference and makes no call
    through [open_func]. *)
Lemma close_trace_quiet (self : FuDeviceLocker World) (error : GErrorLoc) (w : World) :
  let t := trace_of (fu_device_locker_close HAVE_GUSB G_USB_DEVICE_ERROR_NO_DEVICE
                       (Some self) error w) in
  refs t = [] /\ unrefs t = [] /\ results open_slot t = [].
Proof.
  cbv zeta. close_cases self error w; repeat split.
Qed.

Lemma finalize_trace_quiet (self : FuDeviceLocker World) (w : World) :
  let t := trace_of (fu_device_locker_finalize self w) in
  refs t = [] /\ results open_slot t = [].
Proof.
  cbv zeta. destruct (device_open self) eqn:Hopen.
  2:{ rewrite finalize_when_closed by assumption. unfold trace_of, unref_device. cbn.
      now destruct (device self). }
  destruct (close_func self) as [cf|] eqn:Hcf.
  2:{ rewrite finalize_when_close_func_null by assumption. now split. }
  destruct (cf (device self) w) as [r w'] eqn:Hrun.
  rewrite (finalize_when_open self cf r w w') by assumption.
  unfold trace_of, unref_device. cbn. destruct r, (device self); now split.
Qed.

(** Destruction of a locker whose close function is set returns normally
    and drops exactly the one reference on its device. *)
Lemma finalize_completes
    (self : FuDeviceLocker World) (cf : FuDeviceLockerFunc World) (d : GObject) (w : World) :
  close_func self = Some cf ->
  device self = Some d ->
  value_of (fu_device_locker_finalize self w) = Some tt
  /\ unrefs (trace_of (fu_device_locker_finalize self w)) = [d].
Proof.
  intros Hcf Hdev. destruct (device_open self) eqn:Hopen.
  - destruct (cf (device self) w) as [r w'] eqn:Hrun.
    rewrite (finalize_when_open self cf r w w') by assumption.
    unfold trace_of, value_of, unref_device. cbn. rewrite Hdev. now destruct r.
  - rewrite finalize_when_closed by assumption.
    unfold trace_of, value_of, unref_device. cbn. now rewrite Hdev.
Qed.

(** No sequence of explicit closes followed by destruction takes a
    reference. *)
Lemma guard_lifetime_takes_no_reference
    (errors : list GErrorLoc) (self : FuDeviceLocker World) (w : World) :
  refs (trace_of (guard_lifetime HAVE_GUSB G_USB_DEVICE_ERROR_NO_DEVICE errors self w)) = [].
Proof.
  revert self w. induction errors as [|error rest IH]; intros self w.
  - rewrite guard_lifetime_nil. apply finalize_trace_quiet.
  - rewrite guard_lifetime_cons.
    destruct (close_trace_quiet self error w) as (Hrefs & _ & _).
    destruct (fu_device_locker_close HAVE_GUSB G_USB_DEVICE_ERROR_NO_DEVICE (Some self) error w)
      as [[[[[b [this|]] err]|] w1] t1]; unfold trace_of in Hrefs; cbn in Hrefs;
      try exact Hrefs.
    rewrite refs_app, Hrefs. cbn. apply IH.
Qed.

(** After construction the open function is never called again: no
    sequence of explicit closes followed by destruction calls through
    [open_func]. *)
Theorem guard_lifetime_never_opens
    (errors : list GErrorLoc) (self : FuDeviceLocker World) (w : World) :
  invocations open_slot
    (trace_of (guard_lifetime HAVE_GUSB G_USB_DEVICE_ERROR_NO_DEVICE errors self w)) = 0.
Proof.
  unfold invocations. revert self w.
  induction errors as [|error rest IH]; intros self w.
  - rewrite guard_lifetime_nil.
    destruct (finalize_trace_quiet self w) as [_ Hopen]. now rewrite Hopen.
  - rewrite guard_lifetime_cons.
    destruct (close_trace_quiet self error w) as (_ & _ & Hopen).
    destruct (fu_device_locker_close HAVE_GUSB G_USB_DEVICE_ERROR_NO_DEVICE (Some self) error w)
      as [[[[[b [this|]] err]|] w1] t1]; unfold trace_of in Hopen; cbn in Hopen;
      try (now rewrite Hopen).
    rewrite results_app, Hopen. cbn. apply IH.
Qed.

(** A guard whose close function is set lives its whole life without a
    [NULL] call: any sequence of explicit closes followed by destruction
    returns normally, and the only reference dropped is the one on its
    device, once, by destruction. *)
Lemma guard_lifetime_completes
    (errors : list GErrorLoc) (self : FuDeviceLocker World)
    (cf : FuDeviceLockerFunc World) (d : GObject) (w : World) :
  close_func self = Some cf ->
  device self = Some d ->
  let run := guard_lifetime HAVE_GUSB G_USB_DEVICE_ERROR_NO_DEVICE errors self w in
  value_of run = Some tt /\ unrefs (trace_of run) = [d].
Proof.
  cbv zeta. revert self w. induction errors as [|error rest IH]; intros self w Hset Hdev.
  - unfold guard_lifetime, bind. cbn.
    pose proof (finalize_completes self cf d w Hset Hdev) as [Hv Hu].
    destruct (fu_device_locker_finalize self w) as [[v w1] t1]. now cbn in *.
  - rewrite guard_lifetime_cons_run.
    destruct (close_trace_quiet self error w) as (_ & Hunrefs & _).
    destruct (fu_device_locker_close HAVE_GUSB G_USB_DEVICE_ERROR_NO_DEVICE (Some self) error w)
      as [[[[[b self'] err]|] w1] t1] eqn:Hclose.
    + destruct (close_keeps_device_and_close_func self error err w w1 b self' t1 Hclose)
        as (this & -> & Hd & Hc).
      rewrite Hset in Hc. rewrite Hdev in Hd.
      specialize (IH this w1 Hc Hd). destruct IH as [Hv Hu].
      destruct (guard_lifetime HAVE_GUSB G_USB_DEVICE_ERROR_NO_DEVICE rest this w1)
        as [[v w2] t2].
      unfold value_of, trace_of in *. cbn in *. now rewrite unrefs_app, Hunrefs.
    + exfalso. revert Hclose. close_cases self error w; try discriminate; congruence.
Qed.

(** A closed guard runs through explicit closes and destruction to a normal
    end, in the world it started in, dropping only the reference on its
    device. *)
Lemma closed_guard_quiet
    (errors : list GErrorLoc) (self : FuDeviceLocker World) (w : World) :
  device_open self = false ->
  let run := guard_lifetime HAVE_GUSB G_USB_DEVICE_ERROR_NO_DEVICE errors self w in
  value_of run = Some tt
  /\ world_of run = w
  /\ unrefs (trace_of run) = unrefs (unref_device self).
Proof.
  intros Hclosed. cbv zeta. induction errors as [|error rest IH].
  - unfold guard_lifetime, bind, ret. cbn.
    now rewrite finalize_when_closed by assumption.
  - rewrite guard_lifetime_cons_run.
    destruct IH as (Hv & Hw & Hu).
    destruct (is_null error || is_null (deref error)) eqn:Herr;
      [ rewrite close_when_closed by assumption
      | rewrite close_with_error_already_set by assumption ];
      destruct (guard_lifetime HAVE_GUSB G_USB_DEVICE_ERROR_NO_DEVICE rest self w)
        as [[v w2] t2];
      unfold value_of, world_of, trace_of in *; cbn [fst snd] in *; now cbn.
Qed.

(** A closed guard never touches its device again: whatever explicit closes
    follow, and then destruction, the result is normal, the world is as it
    was and nothing is called; the trace holds one critical message for each
    close that was handed an error location already in use, and then the
    release of the device. *)
Theorem closed_guard_is_inert
    (errors : list GErrorLoc) (self : FuDeviceLocker World) (w : World) :
  device_open self = false ->
  guard_lifetime HAVE_GUSB G_USB_DEVICE_ERROR_NO_DEVICE errors self w =
    (Some tt, w,
     map (fun _ => Log G_LOG_LEVEL_CRITICAL "error == NULL || *error == NULL")
       (filter (fun error => negb (is_null error || is_null (deref error))) errors)
     ++ unref_device self).
Proof.
  intros Hclosed. induction errors as [|error rest IH].
  - unfold guard_lifetime, bind, ret. cbn.
    now rewrite finalize_when_closed by assumption.
  - rewrite guard_lifetime_cons_run. cbn [filter map].
    destruct (is_null error || is_null (deref error)) eqn:Herr.
    + rewrite close_when_closed by assumption. now rewrite IH.
    + rewrite close_with_error_already_set by assumption. now rewrite IH.
Qed.

(** Once an explicit close has gone through with a close function that
    succeeded, the device is not used again: whatever explicit closes follow,
    and then destruction, the close function was called exactly that once and
    the world stays as that call left it. *)
Theorem close_success_ends_device_use
    (self : FuDeviceLocker World) (cf : FuDeviceLockerFunc World)
    (error : GErrorLoc) (rest : list GErrorLoc) (w w' : World) :
  device_open self = true ->
  close_func self = Some cf ->
  cf (device self) w = (None, w') ->
  is_null error || is_null (deref error) = true ->
  let run := guard_lifetime HAVE_GUSB G_USB_DEVICE_ERROR_NO_DEVICE (error :: rest) self w in
  value_of run = Some tt
  /\ world_of run = w'
  /\ results close_slot (trace_of run) = [None]
  /\ unrefs (trace_of run) = unrefs (unref_device self).
Proof.
  intros Hopen Hcf Hrun Herr. cbv zeta.
  pose proof (closed_guard_quiet rest (set_device_open self FALSE) w' eq_refl)
    as (Hv & Hw & Hu).
  pose proof (guard_lifetime_closed rest (set_device_open self FALSE) w' eq_refl) as Hres.
  rewrite guard_lifetime_cons_run.
  rewrite (close_when_close_func_succeeds self cf error w w') by assumption.
  destruct (guard_lifetime HAVE_GUSB G_USB_DEVICE_ERROR_NO_DEVICE rest
              (set_device_open self FALSE) w') as [[v w2] t2].
  unfold value_of, world_of, trace_of in *. cbn [fst snd] in *.
  repeat split; try assumption.
  cbn. now rewrite Hres.
Qed.

(** ** Construction: arguments, dispatch and the error convention *)

(** [fu_device_locker_new_full] with a [NULL] device, open function or close
    function, and [fu_device_locker_new] with a [NULL] device, return [NULL]
    after one critical message: no reference is taken, nothing is called and
    the error location is left as it was. *)
Theorem constructors_reject_null_arguments
    (dev : gpointer) (open_fn close_fn : option (FuDeviceLockerFunc World))
    (error : GErrorLoc) (w : World) :
  is_null dev || (is_null open_fn || is_null close_fn) = true ->
  (exists expr,
     fu_device_locker_new_full dev open_fn close_fn error w =
       (Some (NULL, error), w, [Log G_LOG_LEVEL_CRITICAL expr]))
  /\ (exists expr,
        fu_device_locker_new HAVE_GUSB G_IO_ERROR_NOT_SUPPORTED
          g_usb_device_open g_usb_device_close fu_device_open fu_device_close
          NULL error w =
          (Some (NULL, error), w, [Log G_LOG_LEVEL_CRITICAL expr])).
Proof.
  intros H. split.
  - destruct dev as [d|], open_fn as [f|], close_fn as [g|]; try discriminate;
      run_new; eauto.
  - run_new. eauto.
Qed.

Lemma fu_device_is_not_usb (dev : gpointer) :
  FU_IS_DEVICE dev = true -> G_USB_IS_DEVICE dev = false.
Proof.
  unfold FU_IS_DEVICE, G_USB_IS_DEVICE.
  destruct dev as [[[] a]|]; cbn; congruence.
Qed.

(** Construction with every argument given, in one equation: what it
    returns and does for either result of the open call. *)
Lemma new_full_run
    (d : GObject) (open_fn close_fn : FuDeviceLockerFunc World)
    (r : option GError) (w w' : World) :
  open_fn (Some d) w = (r, w') ->
  fu_device_locker_new_full (Some d) (Some open_fn) (Some close_fn) (Some None) w =
    match r with
    | None =>
        (Some (Some {| device := Some d; device_open := TRUE;
                       open_func := Some open_fn; close_func := Some close_fn |},
               Some None),
         w', [Ref d; Call open_slot (Some d) None])
    | Some e =>
        (Some (NULL, Some (Some e)), w',
         [Ref d; Call open_slot (Some d) (Some e); Unref d])
    end.
Proof.
  intros Hrun. run_new. rewrite Hrun. now destruct r.
Qed.

(** On a [FuDevice], in either build, [fu_device_locker_new] is
    [fu_device_locker_new_full] with [fu_device_open] and [fu_device_close]:
    it calls [fu_device_open] once; on success the guard it returns is open
    and will close with [fu_device_close]; on failure it returns [NULL] with
    that error and has released the device again. *)
Theorem new_on_fu_device (d : GObject) (r : option GError) (w w' : World) :
  FU_IS_DEVICE (Some d) = true ->
  fu_device_open (Some d) w = (r, w') ->
  fu_device_locker_new HAVE_GUSB G_IO_ERROR_NOT_SUPPORTED
    g_usb_device_open g_usb_device_close fu_device_open fu_device_close
    (Some d) (Some None) w =
    match r with
    | None =>
        (Some (Some {| device := Some d; device_open := TRUE;
                       open_func := Some fu_device_open;
                       close_func := Some fu_device_close |}, Some None),
         w', [Ref d; Call open_slot (Some d) None])
    | Some e =>
        (Some (NULL, Some (Some e)), w',
         [Ref d; Call open_slot (Some d) (Some e); Unref d])
    end.
Proof.
  intros Hfu Hrun. pose proof (fu_device_is_not_usb (Some d) Hfu) as Husb.
  run_new. rewrite Husb, Hfu, andb_false_r. cbn. rewrite Hrun.
  now destruct r.
Qed.

(** On a [GUsbDevice], in a build with [HAVE_GUSB], [fu_device_locker_new]
    is [fu_device_locker_new_full] with [g_usb_device_open] and
    [g_usb_device_close]. *)
Theorem new_on_usb_device (d : GObject) (r : option GError) (w w' : World) :
  HAVE_GUSB = true ->
  G_USB_IS_DEVICE (Some d) = true ->
  g_usb_device_open (Some d) w = (r, w') ->
  fu_device_locker_new HAVE_GUSB G_IO_ERROR_NOT_SUPPORTED
    g_usb_device_open g_usb_device_close fu_device_open fu_device_close
    (Some d) (Some None) w =
    match r with
    | None =>
        (Some (Some {| device := Some d; device_open := TRUE;
                       open_func := Some g_usb_device_open;
                       close_func := Some g_usb_device_close |}, Some None),
         w', [Ref d; Call open_slot (Some d) None])
    | Some e =>
        (Some (NULL, Some (Some e)), w',
         [Ref d; Call open_slot (Some d) (Some e); Unref d])
    end.
Proof.
  intros Hgusb Husb Hrun.
  run_new. rewrite Hgusb, Husb. cbn. rewrite Hrun.
  now destruct r.
Qed.

(** Given a device, two functions and an empty error location, construction
    always returns, and it follows the GError convention: either a guard and
    the location still empty, or [NULL] and the location holding the error of
    the one open call. *)
Theorem new_full_follows_gerror_convention
    (d : GObject) (open_fn close_fn : FuDeviceLockerFunc World) (w : World) :
  let run := fu_device_locker_new_full (Some d) (Some open_fn) (Some close_fn)
               (Some None) w in
  exists locker error',
    value_of run = Some (locker, error')
    /\ ((locker <> NULL /\ error' = Some None
         /\ results open_slot (trace_of run) = [None])
        \/ (locker = NULL
            /\ exists e, error' = Some (Some e)
                 /\ results open_slot (trace_of run) = [Some e])).
Proof.
  cbv zeta. destruct (open_fn (Some d) w) as [[e|] w'] eqn:Hrun;
    rewrite (new_full_run d open_fn close_fn _ w w' Hrun).
  - do 2 eexists. split; [reflexivity|]. right. split; [reflexivity|]. now exists e.
  - do 2 eexists. split; [reflexivity|]. left. repeat split. discriminate.
Qed.


(** ** From construction to destruction *)

(** The scoped use: a guard is constructed and dropped without an explicit
    close.  The device is referenced, opened, closed and released, in this
    order and once each; a failing close only adds a warning. *)
Theorem construct_then_drop
    (d : GObject) (open_fn close_fn : FuDeviceLockerFunc World)
    (r : option GError) (w w1 w2 : World) :
  open_fn (Some d) w = (None, w1) ->
  close_fn (Some d) w1 = (r, w2) ->
  exists guard t0 t1,
    fu_device_locker_new_full (Some d) (Some open_fn) (Some close_fn) (Some None) w =
      (Some (Some guard, Some None), w1, t0)
    /\ guard_lifetime HAVE_GUSB G_USB_DEVICE_ERROR_NO_DEVICE [] guard w1 = (Some tt, w2, t1)
    /\ t0 ++ t1 =
         [Ref d; Call open_slot (Some d) None; Call close_slot (Some d) r]
         ++ match r with
            | Some e =>
                [Log G_LOG_LEVEL_WARNING ("failed to close device: " ++ message e)%string]
            | None => []
            end
         ++ [Unref d].
Proof.
  intros Hopen Hclose.
  rewrite (new_full_run d open_fn close_fn None w w1 Hopen).
  do 3 eexists. split; [reflexivity|]. split.
  - unfold guard_lifetime, bind, ret. cbn.
    rewrite (finalize_when_open _ close_fn r w1 w2) by (cbn; auto). reflexivity.
  - cbn. now destruct r.
Qed.

(** What a construction that returned a guard has done. *)
Lemma new_full_success_trace
    (dev : gpointer) (open_fn close_fn : option (FuDeviceLockerFunc World))
    (error error' : GErrorLoc) (guard : FuDeviceLocker World) (w w1 : World)
    (t0 : list Event) :
  fu_device_locker_new_full dev open_fn close_fn error w = (Some (Some guard, error'), w1, t0) ->
  exists d, dev = Some d /\ t0 = [Ref d; Call open_slot (Some d) None].
Proof.
  destruct dev as [d|], open_fn as [f|], close_fn as [g|], error as [content|];
    run_new; try discriminate.
  destruct (f (Some d) w) as [[e|] w']; cbn; intros H; inversion H. eauto.
Qed.

(** A guard obtained from construction lives to its end without a [NULL]
    call, whatever explicit closes it sees, and over construction and life
    together exactly one reference on the device is taken and exactly one is
    released. *)
Theorem constructed_guard_releases_device
    (dev : gpointer) (open_fn close_fn : option (FuDeviceLockerFunc World))
    (error error' : GErrorLoc) (guard : FuDeviceLocker World) (w w1 : World)
    (t0 : list Event) (errors : list GErrorLoc) :
  fu_device_locker_new_full dev open_fn close_fn error w = (Some (Some guard, error'), w1, t0) ->
  let run := guard_lifetime HAVE_GUSB G_USB_DEVICE_ERROR_NO_DEVICE errors guard w1 in
  exists d,
    dev = Some d
    /\ value_of run = Some tt
    /\ refs (t0 ++ trace_of run) = [d]
    /\ unrefs (t0 ++ trace_of run) = [d].
Proof.
  intros Hnew. cbv zeta.
  destruct (new_full_guard_shape dev open_fn close_fn error error' guard w w1 t0 Hnew)
    as (_ & Hdev & _ & _ & _ & Hcf & Hset).
  destruct (new_full_success_trace dev open_fn close_fn error error' guard w w1 t0 Hnew)
    as (d & -> & ->).
  destruct close_fn as [g|]; [|now elim Hset].
  destruct (guard_lifetime_completes errors guard g d w1 Hcf Hdev) as [Hv Hu].
  pose proof (guard_lifetime_takes_no_reference errors guard w1) as Hr.
  exists d. split; [reflexivity|]. split; [exact Hv|].
  rewrite refs_app, unrefs_app, Hr, Hu. now split.
Qed.

End LockerFacts.

(** * The theorems at work on the bench *)

Lemma close_device_gone_witness :
  exists self',
    fu_device_locker_close true gusb_no_device
      (Some (open_guard usb_device (fails_with error_no_device))) (Some None) 0 =
      (Some (TRUE, Some self', Some None), 1,
       [Call close_slot (Some usb_device) (Some error_no_device);
        Log G_LOG_LEVEL_DEBUG "ignoring: device gone"])
    /\ device_open self' = true.
Proof.
  exact (close_device_gone_returns_success_and_stays_open true gusb_no_device
           (open_guard usb_device (fails_with error_no_device))
           (fails_with error_no_device) (Some None) error_no_device 0 1
           eq_refl eq_refl eq_refl eq_refl eq_refl eq_refl eq_refl).
Defined.

(** C2 as it is written fails: a close function that keeps failing with a
    genuine error is called by the explicit close and again by destruction. *)
Lemma guard_lifetime_calls_close_twice :
  ~ invocations close_slot
      (trace_of (guard_lifetime true gusb_no_device [Some None]
                   (open_guard fu_device (fails_with error_busy)) 0)) <= 1.
Proof.
  vm_compute. lia.
Qed.

Lemma close_genuine_failure_witness :
  fu_device_locker_close true gusb_no_device
    (Some (open_guard fu_device (fails_with error_busy))) (Some None) 0 =
    (Some (FALSE, Some (open_guard fu_device (fails_with error_busy)), Some (Some error_busy)),
     1, [Call close_slot (Some fu_device) (Some error_busy)])
  /\ exists v tail,
       fu_device_locker_close true gusb_no_device
         (Some (open_guard fu_device (fails_with error_busy))) NULL 1 =
         (v, 2, Call close_slot (Some fu_device) (Some error_busy) :: tail).
Proof.
  destruct (close_genuine_failure_is_returned_and_retried true gusb_no_device
              (open_guard fu_device (fails_with error_busy))
              (fails_with error_busy) (Some None) error_busy 0 1
              eq_refl eq_refl eq_refl eq_refl eq_refl) as (Hfirst & _ & Hnext).
  split; [exact Hfirst|].
  exact (Hnext NULL (Some error_busy) 2 eq_refl eq_refl).
Defined.

Lemma close_non_usb_failure_witness :
  fu_device_locker_close true gusb_no_device
    (Some (open_guard fu_device (fails_with error_no_device))) (Some None) 0 =
    (Some (FALSE, Some (open_guard fu_device (fails_with error_no_device)),
           Some (Some error_no_device)),
     1, [Call close_slot (Some fu_device) (Some error_no_device)]).
Proof.
  exact (close_non_usb_failure_is_propagated true gusb_no_device
           (open_guard fu_device (fails_with error_no_device))
           (fails_with error_no_device) (Some None) error_no_device 0 1
           eq_refl eq_refl eq_refl eq_refl eq_refl).
Defined.

Lemma close_twice_after_device_gone_witness :
  exists t1 v2 t2,
    fu_device_locker_close true gusb_no_device
      (Some (open_guard usb_device (fails_in_turn error_no_device error_busy)))
      (Some None) 0 =
      (Some (TRUE, Some (open_guard usb_device (fails_in_turn error_no_device error_busy)),
             Some None), 1, t1)
    /\ fu_device_locker_close true gusb_no_device
         (Some (open_guard usb_device (fails_in_turn error_no_device error_busy)))
         (Some None) 1 = (v2, 2, t2)
    /\ results close_slot (t1 ++ t2) = [Some error_no_device; Some error_busy]
    /\ invocations close_slot (t1 ++ t2) = 2.
Proof.
  exact (close_twice_after_device_gone_calls_twice true gusb_no_device
           (open_guard usb_device (fails_in_turn error_no_device error_busy))
           (fails_in_turn error_no_device error_busy)
           (Some None) (Some None) error_no_device (Some error_busy) 0 1 2
           eq_refl eq_refl eq_refl eq_refl eq_refl eq_refl eq_refl eq_refl eq_refl).
Defined.

(** On that guard the first explicit close returns [TRUE] and the second one
    returns [FALSE] with the error of the second call. *)
Example close_twice_device_gone_then_busy :
  let guard := open_guard usb_device (fails_in_turn error_no_device error_busy) in
  value_of (fu_device_locker_close true gusb_no_device (Some guard) (Some None) 0) =
    Some (TRUE, Some guard, Some None)
  /\ value_of (fu_device_locker_close true gusb_no_device (Some guard) (Some None) 1) =
       Some (FALSE, Some guard, Some (Some error_busy)).
Proof.
  split; reflexivity.
Qed.

(** After a swallowed device-gone failure destruction calls the close
    function once more and logs its failure as a warning. *)
Example close_device_gone_then_finalize :
  trace_of (guard_lifetime true gusb_no_device [Some None]
              (open_guard usb_device (fails_with error_no_device)) 0) =
    [Call close_slot (Some usb_device) (Some error_no_device);
     Log G_LOG_LEVEL_DEBUG "ignoring: device gone";
     Call close_slot (Some usb_device) (Some error_no_device);
     Log G_LOG_LEVEL_WARNING "failed to close device: device gone";
     Unref usb_device].
Proof.
  reflexivity.
Qed.

Lemma finalize_witness :
  (let run := fu_device_locker_finalize (open_guard fu_device (fails_with error_busy)) 0 in
   value_of run = Some tt
   /\ world_of run = 1
   /\ invocations close_slot (trace_of run) = 1
   /\ trace_of run =
        [Call close_slot (Some fu_device) (Some error_busy);
         Log G_LOG_LEVEL_WARNING "failed to close device: device busy";
         Unref fu_device])
  /\ (let run := fu_device_locker_finalize
                   (set_device_open (open_guard fu_device (fails_with error_busy)) FALSE) 0 in
      run = (Some tt, 0, [Unref fu_device])
      /\ invocations close_slot (trace_of run) = 0).
Proof.
  split.
  - exact (proj1 (finalize_closes_once_and_swallows
                    (open_guard fu_device (fails_with error_busy)) 0)
             eq_refl (fails_with error_busy) (Some error_busy) 1 eq_refl eq_refl).
  - exact (proj2 (finalize_closes_once_and_swallows
                    (set_device_open (open_guard fu_device (fails_with error_busy)) FALSE) 0)
             eq_refl).
Defined.

Lemma new_full_opens_once_witness :
  let run := fu_device_locker_new_full (Some fu_device) (Some succeeds)
               (Some (fails_with error_busy)) (Some None) 0 in
  run = (Some (Some {| device := Some fu_device; device_open := TRUE;
                       open_func := Some succeeds;
                       close_func := Some (fails_with error_busy) |},
               Some None),
         1, [Ref fu_device; Call open_slot (Some fu_device) None])
  /\ invocations open_slot (trace_of run) = 1
  /\ invocations close_slot (trace_of run) = 0.
Proof.
  exact (new_full_opens_once fu_device succeeds (fails_with error_busy) None 0 1 eq_refl).
Defined.

Lemma new_full_open_failure_witness :
  let run := fu_device_locker_new_full (Some fu_device) (Some (fails_with error_busy))
               (Some succeeds) (Some None) 0 in
  run = (Some (NULL, Some (Some error_busy)), 1,
         [Ref fu_device; Call open_slot (Some fu_device) (Some error_busy); Unref fu_device])
  /\ invocations close_slot (trace_of run) = 0.
Proof.
  exact (new_full_open_failure fu_device (fails_with error_busy) succeeds error_busy 0 1
           eq_refl).
Defined.

Lemma new_unsupported_device_type_witness :
  let run := fu_device_locker_new true gio_not_supported
               succeeds succeeds succeeds succeeds (Some plain_object) (Some None) 0 in
  run = (Some (NULL,
               Some (Some {| domain := G_IO_ERROR; code := gio_not_supported;
                             message := "device object type not supported" |})),
         0, [])
  /\ invocations open_slot (trace_of run) = 0.
Proof.
  exact (new_unsupported_device_type true gio_not_supported
           succeeds succeeds succeeds succeeds plain_object 0 eq_refl eq_refl).
Defined.

(** * The further facts at work on the bench *)

Lemma close_rejects_bad_arguments_witness :
  exists expr,
    fu_device_locker_close true gusb_no_device
      (Some (open_guard fu_device succeeds)) (Some (Some error_busy)) 0 =
      (Some (FALSE, Some (open_guard fu_device succeeds), Some (Some error_busy)), 0,
       [Log G_LOG_LEVEL_CRITICAL expr]).
Proof.
  exact (close_rejects_bad_arguments true gusb_no_device
           (Some (open_guard fu_device succeeds)) (Some (Some error_busy)) 0 eq_refl).
Defined.

Lemma close_only_clears_device_open_witness :
  exists this,
    Some (set_device_open (open_guard fu_device succeeds) FALSE) = Some this
    /\ device this = Some fu_device
    /\ open_func this = Some succeeds
    /\ close_func this = Some succeeds
    /\ (device_open this = true -> TRUE = true)
    /\ (TRUE = FALSE -> this = open_guard fu_device succeeds).
Proof.
  exact (close_only_clears_device_open true gusb_no_device
           (open_guard fu_device succeeds) (Some None) (Some None) 0 1 TRUE
           (Some (set_device_open (open_guard fu_device succeeds) FALSE))
           [Call close_slot (Some fu_device) None] eq_refl).
Defined.

Lemma close_follows_gerror_convention_witness :
  (FALSE = TRUE /\ Some (Some error_busy) = Some None)
  \/ (FALSE = FALSE
      /\ exists e,
           Some (Some error_busy) = Some (Some e)
           /\ results close_slot [Call close_slot (Some fu_device) (Some error_busy)] =
                [Some e]).
Proof.
  exact (close_follows_gerror_convention true gusb_no_device
           (open_guard fu_device (fails_with error_busy)) (Some (Some error_busy)) 0 1 FALSE
           (Some (open_guard fu_device (fails_with error_busy)))
           [Call close_slot (Some fu_device) (Some error_busy)] eq_refl).
Defined.

Lemma close_success_but_open_witness :
  true = true
  /\ G_USB_IS_DEVICE (Some usb_device) = true
  /\ exists e,
       results close_slot
         [Call close_slot (Some usb_device) (Some error_no_device);
          Log G_LOG_LEVEL_DEBUG "ignoring: device gone"] = [Some e]
       /\ g_error_matches (Some e) G_USB_DEVICE_ERROR gusb_no_device = true.
Proof.
  exact (close_success_but_open_only_when_device_gone true gusb_no_device
           (open_guard usb_device (fails_with error_no_device))
           (open_guard usb_device (fails_with error_no_device))
           (Some None) (Some None) 0 1
           [Call close_slot (Some usb_device) (Some error_no_device);
            Log G_LOG_LEVEL_DEBUG "ignoring: device gone"] eq_refl eq_refl).
Defined.

Lemma closed_guard_is_inert_witness :
  guard_lifetime true gusb_no_device [Some None; Some (Some error_busy); NULL]
    (set_device_open (open_guard fu_device (fails_with error_busy)) FALSE) 0 =
    (Some tt, 0,
     [Log G_LOG_LEVEL_CRITICAL "error == NULL || *error == NULL"; Unref fu_device]).
Proof.
  exact (closed_guard_is_inert true gusb_no_device
           [Some None; Some (Some error_busy); NULL]
           (set_device_open (open_guard fu_device (fails_with error_busy)) FALSE) 0 eq_refl).
Defined.

Lemma close_success_ends_device_use_witness :
  let run := guard_lifetime true gusb_no_device [Some None; NULL; Some None]
               (open_guard fu_device succeeds) 0 in
  value_of run = Some tt
  /\ world_of run = 1
  /\ results close_slot (trace_of run) = [None]
  /\ unrefs (trace_of run) = [fu_device].
Proof.
  exact (close_success_ends_device_use true gusb_no_device
           (open_guard fu_device succeeds) succeeds (Some None) [NULL; Some None] 0 1
           eq_refl eq_refl eq_refl eq_refl).
Defined.

Lemma constructors_reject_null_arguments_witness :
  (exists expr,
     fu_device_locker_new_full (Some fu_device) NULL (Some succeeds) (Some None) 0 =
       (Some (NULL, Some None), 0, [Log G_LOG_LEVEL_CRITICAL expr]))
  /\ (exists expr,
        fu_device_locker_new true gio_not_supported succeeds succeeds succeeds succeeds
          NULL (Some None) 0 =
          (Some (NULL, Some None), 0, [Log G_LOG_LEVEL_CRITICAL expr])).
Proof.
  exact (constructors_reject_null_arguments true gio_not_supported
           succeeds succeeds succeeds succeeds
           (Some fu_device) NULL (Some succeeds) (Some None) 0 eq_refl).
Defined.

Lemma new_on_fu_device_witness :
  fu_device_locker_new true gio_not_supported
    (fails_with error_no_device) (fails_with error_no_device)
    succeeds (fails_with error_busy) (Some fu_device) (Some None) 0 =
    (Some (Some {| device := Some fu_device; device_open := TRUE;
                   open_func := Some succeeds;
                   close_func := Some (fails_with error_busy) |}, Some None),
     1, [Ref fu_device; Call open_slot (Some fu_device) None]).
Proof.
  exact (new_on_fu_device true gio_not_supported
           (fails_with error_no_device) (fails_with error_no_device)
           succeeds (fails_with error_busy) fu_device None 0 1 eq_refl eq_refl).
Defined.

Lemma new_on_usb_device_witness :
  fu_device_locker_new true gio_not_supported
    (fails_with error_no_device) succeeds
    succeeds succeeds (Some usb_device) (Some None) 0 =
    (Some (NULL, Some (Some error_no_device)), 1,
     [Ref usb_device; Call open_slot (Some usb_device) (Some error_no_device);
      Unref usb_device]).
Proof.
  exact (new_on_usb_device true gio_not_supported
           (fails_with error_no_device) succeeds succeeds succeeds
           usb_device (Some error_no_device) 0 1 eq_refl eq_refl eq_refl).
Defined.

Lemma construct_then_drop_witness :
  exists guard t0 t1,
    fu_device_locker_new_full (Some fu_device) (Some succeeds)
      (Some (fails_with error_busy)) (Some None) 0 =
      (Some (Some guard, Some None), 1, t0)
    /\ guard_lifetime true gusb_no_device [] guard 1 = (Some tt, 2, t1)
    /\ t0 ++ t1 =
         [Ref fu_device; Call open_slot (Some fu_device) None;
          Call close_slot (Some fu_device) (Some error_busy);
          Log G_LOG_LEVEL_WARNING "failed to close device: device busy";
          Unref fu_device].
Proof.
  exact (construct_then_drop true gusb_no_device
           fu_device succeeds (fails_with error_busy) (Some error_busy) 0 1 2
           eq_refl eq_refl).
Defined.

Lemma constructed_guard_releases_device_witness :
  let run := guard_lifetime true gusb_no_device [Some None; Some None]
               (open_guard usb_device (fails_in_turn error_no_device error_busy)) 1 in
  exists d,
    Some usb_device = Some d
    /\ value_of run = Some tt
    /\ refs ([Ref usb_device; Call open_slot (Some usb_device) None] ++ trace_of run) = [d]
    /\ unrefs ([Ref usb_device; Call open_slot (Some usb_device) None] ++ trace_of run) = [d].
Proof.
  exact (constructed_guard_releases_device true gusb_no_device
           (Some usb_device) (Some succeeds)
           (Some (fails_in_turn error_no_device error_busy)) (Some None) (Some None)
           (open_guard usb_device (fails_in_turn error_no_device error_busy)) 0 1
           [Ref usb_device; Call open_slot (Some usb_device) None]
           [Some None; Some None] eq_refl).
Defined.

